(** * FunWine front end: session store, route guard and sidebar

    A shallow embedding of the client-side authentication slice:

    - [types/auth.ts]            the [User] and [TokenResponse] records;
    - [context/AuthContext.tsx]  the React state of [AuthProvider] and its
                                 three asynchronous actions [fetchMe],
                                 [login] and [logout];
    - [app/ClientShell.tsx]      the route guard;
    - [components/Sidebar.tsx]   the feature-gated navigation list.

    The actions only ever write the React state (through the [useState]
    setters) and never read it, so an action is a state transformer that may
    complete normally or throw.  The answer of the back end to each HTTP
    request is an argument of the action.  Actions are run to completion one
    after the other; overlapping calls are not modelled. *)

From stdpp Require Import base option list strings gmap.
From Stdlib Require Import ZArith Bool.

Local Open Scope Z_scope.

(** ** JavaScript values *)

Module Js.

(** Truthiness of a string: only the empty string is falsy. *)
Definition truthy_string (s : string) : bool := negb (String.eqb s "").

(** Truthiness of a number; the status codes met here are integers. *)
Definition truthy_number (n : Z) : bool := negb (n =? 0).

(** Truthiness of a value of type [string | undefined]. *)
Definition truthy (v : option string) : bool :=
  match v with
  | Some s => truthy_string s
  | None => false
  end.

(** [a || b]: the left operand when it is truthy, else the right one. *)
Definition or (a b : option string) : option string :=
  if truthy a then a else b.

(** [s.startsWith(p)]. *)
Definition startsWith (s p : string) : bool := String.prefix p s.

End Js.

Infix "|||" := Js.or (at level 50, left associativity).

(** ** types/auth.ts *)

Record User := {
  id : Z;
  username : string;
  email : option string;
  display_name : option string;
  is_active : bool;
  created_at : option string;
  ui_theme : string;
  ui_sidebar : bool;
  ui_navbar : bool;
  ui_font_scale : string;
  ui_simple_mode : bool;
  ui_features : gmap string bool
}.

Record TokenResponse := {
  access_token : string;
  token_type : string;
  user_id : option Z;
  token_username : option string
}.

(** ** Errors and HTTP outcomes

    What the [catch] blocks look at: [err.response.status],
    [err.response.data.detail] and [err.message].  An axios error carries a
    [response] when the server answered with an error status, and none when
    the request never got an answer; a plain [new Error(msg)] has none. *)

Record ErrorResponse := {
  status : Z;
  data_detail : option string
}.

Record JsError := {
  response : option ErrorResponse;
  message : string
}.

(** [new Error(msg)] *)
Definition Error (msg : string) : JsError :=
  {| response := None; message := msg |}.

(** [err?.response?.data?.detail] *)
Definition detail_of (err : JsError) : option string :=
  r ← response err; data_detail r.

(** The promise returned by an axios call: resolved with the response body,
    or rejected with an error. *)
Inductive Outcome (A : Type) :=
| Resolved (data : A)
| Rejected (err : JsError).
Arguments Resolved {A} data.
Arguments Rejected {A} err.

(** ** context/AuthContext.tsx: the state *)

Record AuthState := {
  user : option User;
  loading : bool;
  error : option string;
  theme : string
}.

(** The four [useState] initial values of [AuthProvider]. *)
Definition initialState : AuthState :=
  {| user := None; loading := true; error := None; theme := "theme-light" |}.

(** A request on the wire, with the state the components saw while it was
    pending. *)
Record Flight := {
  verb : string;
  url : string;
  body : option (string * string);
  during : AuthState
}.

Record Run := {
  state : AuthState;
  inflight : list Flight
}.

Definition initialRun : Run := {| state := initialState; inflight := [] |}.

(** ** A state and exception monad for the [async] functions *)

Inductive Completion (A : Type) :=
| Normal (a : A)
| Thrown (err : JsError).
Arguments Normal {A} a.
Arguments Thrown {A} err.

Definition Task (A : Type) : Type := Run → Completion A * Run.

#[export] Instance Task_ret : MRet Task := λ A a r, (Normal a, r).

#[export] Instance Task_bind : MBind Task := λ A B f m r,
  match m r with
  | (Normal a, r') => f a r'
  | (Thrown err, r') => (Thrown err, r')
  end.

Definition throw {A} (err : JsError) : Task A := λ r, (Thrown err, r).

(** [try { body } catch (err) { handler } finally { fin }] *)
Definition try_catch_finally {A}
    (body : Task A) (handler : JsError → Task A) (fin : Task ()) : Task A :=
  λ r,
    let '(c, r1) :=
      match body r with
      | (Normal a, r1) => (Normal a, r1)
      | (Thrown err, r1) => handler err r1
      end in
    match fin r1 with
    | (Normal _, r2) => (c, r2)
    | (Thrown err, r2) => (Thrown err, r2)
    end.

Definition modify (f : AuthState → AuthState) : Task () :=
  λ r, (Normal (), {| state := f (state r); inflight := inflight r |}).

Definition setUser (u : option User) : Task () :=
  modify (λ s, {| user := u; loading := loading s; error := error s; theme := theme s |}).
Definition setLoading (b : bool) : Task () :=
  modify (λ s, {| user := user s; loading := b; error := error s; theme := theme s |}).
Definition setError (e : option string) : Task () :=
  modify (λ s, {| user := user s; loading := loading s; error := e; theme := theme s |}).
Definition setTheme (t : string) : Task () :=
  modify (λ s, {| user := user s; loading := loading s; error := error s; theme := t |}).

(** [await axiosClient.<verb>(url, body)]: the request goes on the wire, the
    state written so far is what is rendered while it is pending, and the
    promise settles with the given outcome. *)
Definition await_axios {A} (v u : string) (b : option (string * string))
    (o : Outcome A) : Task A :=
  λ r,
    let r' := {| state := state r;
                 inflight := inflight r ++
                   [{| verb := v; url := u; body := b; during := state r |}] |} in
    match o with
    | Resolved data => (Normal data, r')
    | Rejected err => (Thrown err, r')
    end.

(** ** context/AuthContext.tsx: the actions *)

Definition fetchMe (me : Outcome User) : Task (option User) :=
  setLoading true;;
  setError None;;
  try_catch_finally
    (data ← await_axios "GET" "/auth/me" None me;
     setUser (Some data);;
     (if Js.truthy_string (ui_theme data)
      then setTheme (ui_theme data)
      else mret ());;
     mret (Some data))
    (λ err,
       setUser None;;
       (if match response err with
           | Some resp => Js.truthy_number (status resp) && negb (status resp =? 401)
           | None => false
           end
        then setError (detail_of err ||| Some (message err) ||| Some "Failed to fetch user")
        else mret ());;
       mret None)
    (setLoading false).

Definition login (username password : string)
    (post : Outcome TokenResponse) (me : Outcome User) : Task User :=
  setLoading true;;
  setError None;;
  try_catch_finally
    (_ ← await_axios "POST" "/auth/login" (Some (username, password)) post;
     fetched ← fetchMe me;
     match fetched with
     | None => throw (Error "Login succeeded but failed to load user")
     | Some u => mret u
     end)
    (λ err,
       setUser None;;
       setError (detail_of err ||| Some (message err) ||| Some "Login failed");;
       throw err)
    (setLoading false).

Definition logout (post : Outcome ()) : Task () :=
  setLoading true;;
  setError None;;
  try_catch_finally
    (_ ← await_axios "POST" "/auth/logout" None post;
     setUser None;;
     setTheme "theme-light")
    (λ err,
       setError (detail_of err ||| Some (message err) ||| Some "Logout failed");;
       throw err)
    (setLoading false).

(** ** Sequences of store operations

    What a component can ask of the store, together with the answers of the
    back end while the operation runs.  [AuthProvider] itself issues one
    [fetchMe] on mount. *)

Inductive Action :=
| CallFetchMe (me : Outcome User)
| CallLogin (username password : string)
    (post : Outcome TokenResponse) (me : Outcome User)
| CallLogout (post : Outcome ()).

(** The run after the operation has settled, whether it resolved or
    rejected. *)
Definition after (a : Action) (r : Run) : Run :=
  match a with
  | CallFetchMe me => snd (fetchMe me r)
  | CallLogin u p post me => snd (login u p post me r)
  | CallLogout post => snd (logout post r)
  end.

Definition after_all (acts : list Action) (r : Run) : Run :=
  foldl (λ r a, after a r) r acts.

(** The states a component can observe between operations. *)
Definition Reachable (s : AuthState) : Prop :=
  ∃ acts, s = state (after_all acts initialRun).

(** The theme shown when nobody is logged in: the initial value of the
    [theme] state, which [logout] restores. *)
Definition defaultTheme : string := "theme-light".

(** ** Rendered output *)

#[local] Set Warnings "-register-all".

Inductive Element :=
| Children
| Text (s : string)
| Component (name : string)
| Link (key href label : string)
| Tag (name className : string) (kids : list Element)
| Fragment (kids : list Element).

(** [{cond && <X />}]: React renders nothing for [false]. *)
Definition when (cond : bool) (e : Element) : list Element :=
  if cond then [e] else [].

(** An array of children in which React skips the [null] entries. *)
Definition skip_null (kids : list (option Element)) : list Element :=
  omap (λ k, k) kids.

(** ** app/ClientShell.tsx *)

Definition publicRoutes : list string := ["/login"; "/register"; "/"; "/public"].

Definition isPublic (pathname : string) : bool :=
  existsb
    (λ route, String.eqb pathname route || Js.startsWith pathname (route +:+ "/"))
    publicRoutes.

Definition LoadingPlaceholder : Element :=
  Tag "div" "h-screen flex items-center justify-center bg-gray-50"
    [Tag "div" "text-lg" [Text "Loading FunWine..."]].

Definition Passthrough : Element := Fragment [Children].

Definition AuthenticatedShell (u : User) : Element :=
  Tag "div" "flex h-screen w-screen overflow-hidden bg-[var(--bg)] text-[var(--fg)]"
    (when (negb (eqb (ui_sidebar u) false))
       (Tag "aside" "w-64 border-r border-theme h-full overflow-y-auto"
          [Component "Sidebar"])
     ++ [Tag "div" "flex flex-col flex-1 h-full overflow-hidden"
           (when (negb (eqb (ui_navbar u) false))
              (Tag "header" "border-b border-theme" [Component "Navbar"])
            ++ [Tag "main" "flex-1 overflow-y-auto p-6" [Children]])]).

(** After the loading test, [if (isPublic || !user) return <>{children}</>]
    leaves the shell for a present user on a route that is not public. *)
Definition ClientShell (pathname : string) (ctx : AuthState) : Element :=
  if loading ctx then LoadingPlaceholder
  else
    match user ctx with
    | None => Passthrough
    | Some u => if isPublic pathname then Passthrough else AuthenticatedShell u
    end.

(** Does a tag with the given name occur in the rendered tree? *)
Fixpoint has_tag (t : string) (e : Element) : bool :=
  match e with
  | Tag n _ kids => String.eqb n t || existsb (has_tag t) kids
  | Fragment kids => existsb (has_tag t) kids
  | _ => false
  end.

(** Does the named component occur in the rendered tree? *)
Fixpoint has_component (c : string) (e : Element) : bool :=
  match e with
  | Component n => String.eqb n c
  | Tag _ _ kids | Fragment kids => existsb (has_component c) kids
  | _ => false
  end.

(** Does the page content ([{children}]) occur in the rendered tree? *)
Fixpoint has_children (e : Element) : bool :=
  match e with
  | Children => true
  | Tag _ _ kids | Fragment kids => existsb has_children kids
  | _ => false
  end.

(** Does the page content occur inside a tag with the given name? *)
Fixpoint children_in_tag (t : string) (e : Element) : bool :=
  match e with
  | Tag n _ kids =>
      (String.eqb n t && existsb has_children kids) || existsb (children_in_tag t) kids
  | Fragment kids => existsb (children_in_tag t) kids
  | _ => false
  end.

(** ** components/Sidebar.tsx *)

Record NavLink := {
  href : string;
  label : string;
  key : string
}.

Definition links : list NavLink :=
  [ {| href := "/dashboard"; label := "Dashboard"; key := "dashboard" |};
    {| href := "/intake"; label := "Intake"; key := "intake" |};
    {| href := "/blocks"; label := "Blocks"; key := "blocks" |};
    {| href := "/reports"; label := "Reports"; key := "reports" |} ].

(** [user?.ui_simple_mode] *)
Definition simple_mode (u : option User) : bool :=
  match u with
  | Some u => ui_simple_mode u
  | None => false
  end.

(** [user?.ui_features?.[k]], as a truth value: a missing key is falsy. *)
Definition feature_enabled (u : option User) (k : string) : bool :=
  match u with
  | Some u => default false (ui_features u !! k)
  | None => false
  end.

(** The body of the [links.map] callback: [null] or a link. *)
Definition sidebar_entry (u : option User) (l : NavLink) : option Element :=
  if simple_mode u && negb (feature_enabled u (key l))
  then None
  else Some (Link (href l) (href l) (label l)).

Definition Sidebar (ctx : AuthState) : Element :=
  Tag "div" "p-4 h-full bg-[var(--bg)] text-[var(--fg)]"
    [Tag "nav" "flex flex-col gap-3"
       (skip_null (map (sidebar_entry (user ctx)) links))].

(** The entry of [l] is suppressed when its link is not in the [nav]. *)
Definition suppressed (ctx : AuthState) (l : NavLink) : Prop :=
  Link (href l) (href l) (label l) ∉ skip_null (map (sidebar_entry (user ctx)) links).

(** ** What the actions leave behind

    Closed forms used to state what each action computes. *)

(** The state rendered while a request of an action is pending: the action
    has set [loading] and cleared [error], and nothing else. *)
Definition pending (s : AuthState) : AuthState :=
  {| user := user s; loading := true; error := None; theme := theme s |}.

Definition settled (u : option User) (e : option string) (t : string) : AuthState :=
  {| user := u; loading := false; error := e; theme := t |}.

Definition flight (v u : string) (b : option (string * string)) (s : AuthState) : Flight :=
  {| verb := v; url := u; body := b; during := pending s |}.

(** The theme after a successful identity fetch. *)
Definition applied_theme (data : User) (old : string) : string :=
  if Js.truthy_string (ui_theme data) then ui_theme data else old.

(** The error message [fetchMe] leaves after a rejected request. *)
Definition fetch_error (err : JsError) : option string :=
  match response err with
  | Some resp =>
      if Js.truthy_number (status resp) && negb (status resp =? 401)
      then detail_of err ||| Some (message err) ||| Some "Failed to fetch user"
      else None
  | None => None
  end.

(** The message the [catch] block of [login] or [logout] records. *)
Definition error_text (err : JsError) (fallback : string) : option string :=
  detail_of err ||| Some (message err) ||| Some fallback.

Definition inconsistency : JsError :=
  Error "Login succeeded but failed to load user".

(** The invariant as the data model words it. *)
Definition theme_reflects_identity (s : AuthState) : Prop :=
  match user s with
  | Some u => theme s = ui_theme u
  | None => theme s = defaultTheme
  end.

Definition theme_tracks_nonempty (s : AuthState) : Prop :=
  ∀ u, user s = Some u → ui_theme u ≠ "" → theme s = ui_theme u.

(** ** Sample data *)

Definition alice : User :=
  {| id := 1; username := "alice"; email := None; display_name := None;
     is_active := true; created_at := None;
     ui_theme := "theme-dark"; ui_sidebar := true; ui_navbar := true;
     ui_font_scale := "1"; ui_simple_mode := false; ui_features := ∅ |}.

(** A user whose stored theme preference is the empty string. *)
Definition unthemed : User :=
  {| id := 2; username := "bob"; email := None; display_name := None;
     is_active := true; created_at := None;
     ui_theme := ""; ui_sidebar := true; ui_navbar := true;
     ui_font_scale := "1"; ui_simple_mode := false; ui_features := ∅ |}.

Definition token : TokenResponse :=
  {| access_token := "t"; token_type := "bearer";
     user_id := Some 1; token_username := Some "alice" |}.

(** Answers of the back end. *)
Definition unauthorized : JsError :=
  {| response := Some {| status := 401; data_detail := Some "Not authenticated" |};
     message := "Request failed with status code 401" |}.

Definition bad_credentials : JsError :=
  {| response := Some {| status := 401; data_detail := Some "bad credentials" |};
     message := "Request failed with status code 401" |}.

Definition server_error : JsError :=
  {| response := Some {| status := 500; data_detail := None |};
     message := "Request failed with status code 500" |}.

(** The request never got an answer: axios rejects without a [response]. *)
Definition network_error : JsError :=
  {| response := None; message := "Network Error" |}.

(** A simple-mode user for whom only the dashboard is switched on. *)
Definition carol : User :=
  {| id := 3; username := "carol"; email := None; display_name := None;
     is_active := true; created_at := None;
     ui_theme := "theme-light"; ui_sidebar := true; ui_navbar := false;
     ui_font_scale := "1"; ui_simple_mode := true;
     ui_features := {[ "dashboard" := true; "blocks" := false ]} |}.

Definition blocks : NavLink :=
  {| href := "/blocks"; label := "Blocks"; key := "blocks" |}.

(** ** ClientShell: the theme effect

    [document.documentElement.className = theme], run on every change of
    [theme]: the class of the document root. *)
Definition documentClassName (ctx : AuthState) : string := theme ctx.

(** ** AuthProvider: the mount effect

    [useEffect(() => { void fetchMe(); }, [fetchMe])]: one identity fetch,
    started from the initial state. *)
Definition mount (me : Outcome User) : Run :=
  snd (fetchMe me initialRun).

(** ** next/navigation: the router

    The session history, newest entry first.  [router.push] adds an entry,
    [router.replace] overwrites the current one. *)
Definition router_push (href : string) (entries : list string) : list string :=
  href :: entries.

Definition router_replace (href : string) (entries : list string) : list string :=
  href :: tail entries.

(** What an event handler of a page can touch: the store, the router and
    the console. *)
Record Browser := {
  store : Run;
  history : list string;
  console : list JsError
}.

(** ** components/Navbar.tsx *)

(** [handleLogout]: [await logout(); router.push("/login")], with a [catch]
    that only logs. *)
Definition handleLogout (post : Outcome ()) (b : Browser) : Browser :=
  match logout post (store b) with
  | (Normal _, r) =>
      {| store := r; history := router_push "/login" (history b);
         console := console b |}
  | (Thrown err, r) =>
      {| store := r; history := history b; console := console b ++ [err] |}
  end.

Definition Navbar (ctx : AuthState) : Element :=
  Tag "div" "flex items-center justify-between px-6 py-3 bg-[var(--bg)] text-[var(--fg)]"
    [Tag "h1" "text-lg font-semibold" [Text "FunWine"];
     Tag "div" "flex items-center gap-4"
       (when (negb (simple_mode (user ctx)))
          (Tag "button" "px-3 py-1 rounded bg-accent text-white" [Text "Settings"])
        ++ [Tag "button" "px-3 py-1 rounded border border-theme" [Text "Logout"]])].

(** Is there a button with the given caption in the rendered tree? *)
Fixpoint has_button (caption : string) (e : Element) : bool :=
  match e with
  | Tag n _ kids =>
      (String.eqb n "button" &&
         existsb (λ k, match k with Text s => String.eqb s caption | _ => false end) kids)
      || existsb (has_button caption) kids
  | Fragment kids => existsb (has_button caption) kids
  | _ => false
  end.

(** ** app/(auth)/login/page.tsx *)

(** [handleSubmit]: [await login(username, password)] and then
    [router.push("/dashboard")]; the [catch] block is empty. *)
Definition handleSubmit (username password : string)
    (post : Outcome TokenResponse) (me : Outcome User) (b : Browser) : Browser :=
  match login username password post me (store b) with
  | (Normal _, r) =>
      {| store := r; history := router_push "/dashboard" (history b);
         console := console b |}
  | (Thrown _, r) =>
      {| store := r; history := history b; console := console b |}
  end.

(** The parts of the login form that depend on state: the two inputs, the
    submit button ([disabled={loading}], caption by [loading]) and the
    message under it ([{error && <div>{error}</div>}]). *)
Record LoginView := {
  username_value : string;
  password_value : string;
  submit_disabled : bool;
  submit_caption : string;
  error_banner : option string
}.

Definition LoginPage (username password : string) (ctx : AuthState) : LoginView :=
  {| username_value := username;
     password_value := password;
     submit_disabled := loading ctx;
     submit_caption := if loading ctx then "Logging in..." else "Login";
     error_banner := if Js.truthy (error ctx) then error ctx else None |}.

(** ** app/dashboard/page.tsx *)

(** The effect: [if (!loading && !user) router.replace("/(auth)/login")]. *)
Definition dashboard_effect (ctx : AuthState) (entries : list string) : list string :=
  if negb (loading ctx) && negb (bool_decide (is_Some (user ctx)))
  then router_replace "/(auth)/login" entries
  else entries.

(** What the page returns: the two early [<div>]s or the welcome block for
    the user. *)
Inductive DashboardView :=
| DashLoading
| DashRedirecting
| DashWelcome (u : User).

Definition DashboardPage (ctx : AuthState) : DashboardView :=
  if loading ctx then DashLoading
  else
    match user ctx with
    | None => DashRedirecting
    | Some u => DashWelcome u
    end.

(** ** Sidebar: the list it renders *)

(** The link element of an entry. *)
Definition link_of (l : NavLink) : Element :=
  Link (href l) (href l) (label l).

(** The children of the [nav]. *)
Definition nav_children (ctx : AuthState) : list Element :=
  skip_null (map (sidebar_entry (user ctx)) links).

(** The identity with one feature flag set, as the back end would return it
    after the preference was changed. *)
Definition set_feature (k : string) (b : bool) (u : User) : User :=
  {| id := id u; username := username u; email := email u;
     display_name := display_name u; is_active := is_active u;
     created_at := created_at u; ui_theme := ui_theme u;
     ui_sidebar := ui_sidebar u; ui_navbar := ui_navbar u;
     ui_font_scale := ui_font_scale u; ui_simple_mode := ui_simple_mode u;
     ui_features := <[k := b]> (ui_features u) |}.

(** What a request looks like on the wire. *)
Definition on_wire (f : Flight) : string * string * option (string * string) :=
  (verb f, url f, body f).

(** ** backend/setup_dev.ps1: the keys of [config/.env]

    The file is taken as its text.  [-notmatch] compares characters without
    regard to case, by the rules of the host's culture: the comparison of a
    pattern character with a character of the text is a parameter. *)

Inductive Platform := Windows | Unix.

(** Carriage return and line feed. *)
Definition CR : Ascii.ascii := Ascii.ascii_of_nat 13.
Definition LF : Ascii.ascii := Ascii.ascii_of_nat 10.

(** The line end [Out-File] writes. *)
Definition newline (p : Platform) : string :=
  match p with
  | Windows => String CR (String LF "")
  | Unix => String LF ""
  end.

Section Dotenv.

Variable same_char : Ascii.ascii → Ascii.ascii → bool.
Variable platform : Platform.

(** The escaped key is matched literally, one character after the other. *)
Fixpoint matches_at (pat s : string) : bool :=
  match pat with
  | "" => true
  | String p pat' =>
      match s with
      | "" => false
      | String c s' => same_char p c && matches_at pat' s'
      end
  end.

(** [(?m)^pat]: the pattern at the start of the text or right after a line
    feed. *)
Fixpoint matches_line_start (pat : string) (bol : bool) (s : string) : bool :=
  (bol && matches_at pat s) ||
  match s with
  | "" => false
  | String c s' => matches_line_start pat (Ascii.eqb c LF) s'
  end.

(** [$content -match "(?m)^$([regex]::Escape($Key))="] *)
Definition has_key (Key content : string) : bool :=
  matches_line_start (Key +:+ "=") true content.

(** [EnsureKey]: the text of the file afterwards, and the line written to
    the host. *)
Definition EnsureKey (content Key DefaultValue : string) : string * string :=
  if negb (has_key Key content)
  then (content +:+ Key +:+ "=" +:+ DefaultValue +:+ newline platform,
        "Added " +:+ Key)
  else (content, Key +:+ " already exists").

(** Step 4 of the script: the file is created empty when it is missing, then
    the three keys are ensured; [guid] is the fresh [$fallbackSecret]. *)
Definition ensure_env (guid : string) (file : option string) : string :=
  let content := default "" file in
  let content := (EnsureKey content "SECRET_KEY" guid).1 in
  let content := (EnsureKey content "BOOTSTRAP_ADMIN_PASSWORD" "IfAtFirst123!").1 in
  (EnsureKey content "BOOTSTRAP_ADMIN_DISPLAY_NAME" "Administrator").1.

End Dotenv.



(** Comparison of characters that ignores the case of the letters A to Z. *)
Definition lower (c : Ascii.ascii) : Ascii.ascii :=
  let n := Ascii.nat_of_ascii c in
  if (Nat.leb 65 n && Nat.leb n 90)%bool then Ascii.ascii_of_nat (n + 32) else c.

Definition same_letter (a b : Ascii.ascii) : bool :=
  Ascii.eqb (lower a) (lower b).

(** * Properties *)

Ltac run_task :=
  cbv [mbind mret Task_bind Task_ret try_catch_finally throw modify
       setUser setLoading setError setTheme await_axios state inflight
       user loading error theme].

(** ** What each action computes *)

Lemma truthy_string_spec s : Js.truthy_string s = true ↔ s ≠ "".
Proof.
  unfold Js.truthy_string. rewrite negb_true_iff.
  destruct (String.eqb_spec s ""); split; congruence.
Qed.

Lemma or_is_Some a (s : string) : is_Some (a ||| Some s).
Proof. unfold Js.or. destruct a as [d|]; simpl; [destruct (Js.truthy_string d)|]; eauto. Qed.

Lemma fetchMe_resolved data r :
  fetchMe (Resolved data) r =
    (Normal (Some data),
     {| state := settled (Some data) None (applied_theme data (theme (state r)));
        inflight := inflight r ++ [flight "GET" "/auth/me" None (state r)] |}).
Proof.
  unfold fetchMe, applied_theme. destruct r as [[] ?].
  cbv -[Js.truthy_string app]. destruct (Js.truthy_string _); reflexivity.
Qed.

Lemma fetchMe_rejected err r :
  fetchMe (Rejected err) r =
    (Normal None,
     {| state := settled None (fetch_error err) (theme (state r));
        inflight := inflight r ++ [flight "GET" "/auth/me" None (state r)] |}).
Proof.
  unfold fetchMe, fetch_error. destruct r as [[] ?], err as [[resp|] msg].
  - cbv -[Js.truthy_number Js.or detail_of Z.eqb app negb andb].
    destruct (_ && _); reflexivity.
  - reflexivity.
Qed.

Lemma login_post_rejected username password err me r :
  login username password (Rejected err) me r =
    (Thrown err,
     {| state := settled None (error_text err "Login failed") (theme (state r));
        inflight := inflight r ++
          [flight "POST" "/auth/login" (Some (username, password)) (state r)] |}).
Proof. destruct r as [[] ?]. reflexivity. Qed.

Lemma login_fetch_rejected username password tok err r :
  login username password (Resolved tok) (Rejected err) r =
    (Thrown inconsistency,
     {| state := settled None (Some (message inconsistency)) (theme (state r));
        inflight := (inflight r ++
          [flight "POST" "/auth/login" (Some (username, password)) (state r)]) ++
          [flight "GET" "/auth/me" None (state r)] |}).
Proof.
  destruct r as [[] ?]. unfold login. run_task.
  rewrite fetchMe_rejected. reflexivity.
Qed.

Lemma login_resolved username password tok data r :
  login username password (Resolved tok) (Resolved data) r =
    (Normal data,
     {| state := settled (Some data) None (applied_theme data (theme (state r)));
        inflight := (inflight r ++
          [flight "POST" "/auth/login" (Some (username, password)) (state r)]) ++
          [flight "GET" "/auth/me" None (state r)] |}).
Proof.
  destruct r as [[] ?]. unfold login. run_task.
  rewrite fetchMe_resolved. reflexivity.
Qed.

Lemma logout_resolved ack r :
  logout (Resolved ack) r =
    (Normal (),
     {| state := settled None None "theme-light";
        inflight := inflight r ++ [flight "POST" "/auth/logout" None (state r)] |}).
Proof. destruct r as [[] ?]. reflexivity. Qed.

Lemma logout_rejected err r :
  logout (Rejected err) r =
    (Thrown err,
     {| state := settled (user (state r)) (error_text err "Logout failed") (theme (state r));
        inflight := inflight r ++ [flight "POST" "/auth/logout" None (state r)] |}).
Proof. destruct r as [[] ?]. reflexivity. Qed.

Lemma error_text_is_Some err fallback : is_Some (error_text err fallback).
Proof. apply or_is_Some. Qed.

(** Server-supplied detail first, then the text of the error, then the
    fixed fallback. *)
Lemma error_text_prefers_detail err fallback :
  (∀ d, detail_of err = Some d → d ≠ "" → error_text err fallback = Some d) ∧
  (Js.truthy (detail_of err) = false → message err ≠ "" →
     error_text err fallback = Some (message err)) ∧
  (Js.truthy (detail_of err) = false → message err = "" →
     error_text err fallback = Some fallback).
Proof.
  unfold error_text, Js.or. repeat split.
  - intros d -> Hd. apply truthy_string_spec in Hd.
    simpl. rewrite Hd. simpl. by rewrite Hd.
  - intros -> Hm. apply truthy_string_spec in Hm.
    simpl. by rewrite Hm.
  - intros -> ->. reflexivity.
Qed.

(** ** Sequences and reachable states *)

Lemma after_all_snoc acts a r :
  after_all (acts ++ [a]) r = after a (after_all acts r).
Proof. unfold after_all. by rewrite foldl_snoc. Qed.

Section Invariants.

Variable P : AuthState → Prop.
Hypothesis establish : P initialState.
Hypothesis preserve : ∀ a r, P (state r) → P (state (after a r)).

Lemma invariant_after_all acts r :
  P (state r) → P (state (after_all acts r)).
Proof.
  revert r. induction acts as [|a acts IH]; intros r Hr; [done|].
  change (after_all (a :: acts) r) with (after_all acts (after a r)).
  apply IH, preserve, Hr.
Qed.

Lemma invariant_reachable s : Reachable s → P s.
Proof. intros [acts ->]. by apply invariant_after_all. Qed.

End Invariants.

(** The state an action leaves, case by case. *)
Lemma after_state a r :
  state (after a r) =
    match a with
    | CallFetchMe (Resolved data)
    | CallLogin _ _ (Resolved _) (Resolved data) =>
        settled (Some data) None (applied_theme data (theme (state r)))
    | CallFetchMe (Rejected err) =>
        settled None (fetch_error err) (theme (state r))
    | CallLogin _ _ (Rejected err) _ =>
        settled None (error_text err "Login failed") (theme (state r))
    | CallLogin _ _ (Resolved _) (Rejected _) =>
        settled None (Some (message inconsistency)) (theme (state r))
    | CallLogout (Resolved _) => settled None None "theme-light"
    | CallLogout (Rejected err) =>
        settled (user (state r)) (error_text err "Logout failed") (theme (state r))
    end.
Proof.
  destruct a as [[data|err]|u p [tok|err] [data|err']|[ack|err]]; unfold after;
    rewrite ?fetchMe_resolved, ?fetchMe_rejected, ?login_resolved,
      ?login_fetch_rejected, ?login_post_rejected, ?logout_resolved,
      ?logout_rejected; reflexivity.
Qed.

(** ** Session store: login followed by the identity fetch *)

(** C1, as stated, fails: a login whose POST and identity fetch both succeed
    with the identity [unthemed], whose [ui_theme] is the empty string, does
    not end with the theme equal to that [ui_theme]; [fetchMe] only applies a
    truthy [ui_theme], so the theme stays ["theme-light"]. *)
Lemma login_then_fetch_unthemed_keeps_theme :
  ¬ (let s' := state (snd (login "bob" "pw" (Resolved token) (Resolved unthemed) initialRun)) in
     loading s' = false ∧ error s' = None ∧ user s' = Some unthemed ∧
     theme s' = ui_theme unthemed).
Proof. rewrite login_resolved. simpl. intros (_ & _ & _ & Htheme). discriminate Htheme. Qed.

(** C1, amended: when the POST to the login endpoint succeeds and the
    identity fetch that follows succeeds with an identity, [login] resolves
    with that identity and the state ends with [loading = false],
    [error] absent, [user] the fetched identity, and [theme] the identity's
    [ui_theme] when that string is not empty, the theme from before the login
    otherwise. *)
Theorem login_then_fetch_success username password tok data r :
  let res := login username password (Resolved tok) (Resolved data) r in
  let s' := state (snd res) in
  fst res = Normal data ∧
  loading s' = false ∧
  error s' = None ∧
  user s' = Some data ∧
  (ui_theme data ≠ "" → theme s' = ui_theme data) ∧
  (ui_theme data = "" → theme s' = theme (state r)).
Proof.
  rewrite login_resolved. cbn [fst snd state settled loading error user theme].
  unfold applied_theme. repeat split.
  - intros Hne. apply truthy_string_spec in Hne. by rewrite Hne.
  - intros ->. reflexivity.
Qed.

Lemma login_then_fetch_success_witness :
  let s' := state (snd (login "alice" "pw" (Resolved token) (Resolved alice) initialRun)) in
  user s' = Some alice ∧ theme s' = "theme-dark" ∧ loading s' = false ∧ error s' = None.
Proof.
  destruct (login_then_fetch_success "alice" "pw" token alice initialRun)
    as (_ & Hl & He & Hu & Ht & _).
  exact (conj Hu (conj (Ht ltac:(discriminate)) (conj Hl He))).
Defined.

(** ** Session store: failures of the identity fetch *)

(** An authentication-failure answer (status 401) is swallowed: the identity
    is cleared and no error is shown. *)
Lemma fetchMe_unauthorized_silent detail msg r :
  let err := {| response := Some {| status := 401; data_detail := detail |};
                message := msg |} in
  fst (fetchMe (Rejected err) r) = Normal None ∧
  user (state (snd (fetchMe (Rejected err) r))) = None ∧
  error (state (snd (fetchMe (Rejected err) r))) = None.
Proof. intros err. rewrite fetchMe_rejected. done. Qed.

(** An answer with any other status clears the identity and sets a message. *)
Lemma fetchMe_error_status err resp r :
  response err = Some resp → status resp ≠ 0 → status resp ≠ 401 →
  user (state (snd (fetchMe (Rejected err) r))) = None ∧
  error (state (snd (fetchMe (Rejected err) r))) =
    error_text err "Failed to fetch user" ∧
  is_Some (error (state (snd (fetchMe (Rejected err) r)))).
Proof.
  intros Hresp H0 H401. rewrite fetchMe_rejected. simpl.
  unfold fetch_error. rewrite Hresp. unfold Js.truthy_number.
  destruct (Z.eqb_spec (status resp) 0), (Z.eqb_spec (status resp) 401); try done.
  simpl. repeat split. apply error_text_is_Some.
Qed.

Example fetchMe_server_error :
  state (snd (fetchMe (Rejected server_error) initialRun)) =
    settled None (Some "Request failed with status code 500") "theme-light".
Proof. rewrite fetchMe_rejected. reflexivity. Qed.

(** C2 at its failing input: the request to [/auth/me] fails without any
    answer from the server (a network error, which is not an
    authentication-failure response).  [fetchMe] clears the identity but
    leaves [error] absent: its test [err?.response?.status && ...] is false
    when there is no response, so no message is set. *)
Theorem fetchMe_network_error_sets_no_error :
  let s' := state (snd (fetchMe (Rejected network_error) initialRun)) in
  response network_error = None ∧
  user s' = None ∧
  error s' = None ∧
  loading s' = false.
Proof. rewrite fetchMe_rejected. done. Qed.

(** The sibling [catch] blocks of [login] and [logout] do record a message
    for the same network error. *)
Lemma login_logout_report_network_error :
  error (state (after (CallLogin "alice" "pw" (Rejected network_error)
                         (Rejected network_error)) initialRun))
    = Some "Network Error" ∧
  error (state (after (CallLogout (Rejected network_error)) initialRun))
    = Some "Network Error".
Proof. rewrite !after_state. done. Qed.

(** ** Session store: theme and identity *)

Lemma reachable_after_all acts : Reachable (state (after_all acts initialRun)).
Proof. by exists acts. Qed.

(** C3, as stated, fails at two reachable states.  After the mount fetch
    answers with [unthemed] the identity is present and the theme is still
    ["theme-light"], not the empty [ui_theme].  After a fetch that answers
    with [alice] and a later fetch that is answered 401, the identity is
    absent and the theme is still ["theme-dark"]. *)
Lemma theme_invariant_broken :
  let s1 := state (after_all [CallFetchMe (Resolved unthemed)] initialRun) in
  let s2 := state (after_all [CallFetchMe (Resolved alice);
                              CallFetchMe (Rejected unauthorized)] initialRun) in
  (Reachable s1 ∧ user s1 = Some unthemed ∧ ¬ theme_reflects_identity s1) ∧
  (Reachable s2 ∧ user s2 = None ∧ ¬ theme_reflects_identity s2).
Proof.
  intros s1 s2. split; (split; [apply reachable_after_all|]).
  - subst s1. unfold after_all, foldl. rewrite after_state.
    split; [done|]. unfold theme_reflects_identity. simpl. discriminate.
  - subst s2. unfold after_all, foldl. rewrite !after_state.
    split; [done|]. unfold theme_reflects_identity. simpl. discriminate.
Qed.

Lemma theme_tracks_nonempty_preserved a r :
  theme_tracks_nonempty (state r) → theme_tracks_nonempty (state (after a r)).
Proof.
  intros Hr u. rewrite after_state.
  destruct a as [[data|err]|? ? [tok|err] [data|err']|[ack|err]]; simpl;
    try discriminate; try (apply Hr).
  all: intros [= ->] Hne; unfold applied_theme;
    apply truthy_string_spec in Hne; by rewrite Hne.
Qed.

(** C3, amended: in the initial state, and after every logout whose request
    succeeded, the identity is absent and the theme is the default; in every
    state the store reaches through [fetchMe], [login] and [logout], whenever
    an identity is present and its [ui_theme] is not the empty string, the
    theme equals that [ui_theme]. *)
Theorem theme_reflects_nonempty_ui_theme :
  theme_reflects_identity initialState ∧
  (∀ acts ack,
     let s := state (after_all (acts ++ [CallLogout (Resolved ack)]) initialRun) in
     user s = None ∧ theme s = defaultTheme) ∧
  (∀ s, Reachable s → ∀ u, user s = Some u → ui_theme u ≠ "" → theme s = ui_theme u).
Proof.
  split; [reflexivity|]. split.
  - intros acts ack. rewrite after_all_snoc, after_state. done.
  - intros s Hs. revert s Hs.
    apply (invariant_reachable theme_tracks_nonempty).
    + intros u. discriminate.
    + apply theme_tracks_nonempty_preserved.
Qed.

Lemma theme_reflects_nonempty_ui_theme_witness :
  theme (state (after_all [CallLogin "alice" "pw" (Resolved token) (Resolved alice)]
                  initialRun)) = ui_theme alice.
Proof.
  apply (proj2 (proj2 theme_reflects_nonempty_ui_theme)) .
  - apply reachable_after_all.
  - unfold after_all, foldl. rewrite after_state. reflexivity.
  - discriminate.
Defined.

(** ** Session store: when login rejects *)

(** [fetchMe] never rejects, and it yields no identity exactly when its
    request was rejected. *)
Lemma fetchMe_yields_none_iff me r :
  fst (fetchMe me r) = Normal None ↔ ∃ err, me = Rejected err.
Proof.
  destruct me as [data|err].
  - rewrite fetchMe_resolved. split; [discriminate | by intros [? ?]].
  - rewrite fetchMe_rejected. split; eauto.
Qed.

(** C4: [login] rejects if and only if the POST fails or the identity fetch
    after a successful POST yields no identity.  When the POST fails, the
    same error is re-raised, the identity is cleared and the recorded message
    is the server-supplied detail when there is one, else the text of the
    transport error.  When the fetch yields no identity, [login] fails with
    the inconsistency error.  A 401 answer with detail "bad credentials"
    makes [login] reject with that message recorded and no identity. *)
Theorem login_rejects_iff username password post me r :
  let res := login username password post me r in
  let s' := state (snd res) in
  ((∃ err, fst res = Thrown err) ↔
     (∃ err, post = Rejected err) ∨
     ((∃ tok, post = Resolved tok) ∧ ∀ r0, fst (fetchMe me r0) = Normal None)) ∧
  (∀ err, post = Rejected err →
     fst res = Thrown err ∧ user s' = None ∧ loading s' = false ∧
     is_Some (error s') ∧
     (∀ d, detail_of err = Some d → d ≠ "" → error s' = Some d) ∧
     (Js.truthy (detail_of err) = false → message err ≠ "" →
        error s' = Some (message err))) ∧
  (∀ tok, post = Resolved tok → fst (fetchMe me r) = Normal None →
     fst res = Thrown inconsistency ∧ user s' = None ∧ loading s' = false ∧
     error s' = Some "Login succeeded but failed to load user") ∧
  (∀ msg,
     post = Rejected {| response := Some {| status := 401;
                                            data_detail := Some "bad credentials" |};
                        message := msg |} →
     (∃ err, fst res = Thrown err) ∧ error s' = Some "bad credentials" ∧
     user s' = None).
Proof.
  intros res s'. subst s' res. split; [|split; [|split]].
  - destruct post as [tok|err], me as [data|err'].
    + rewrite login_resolved. split.
      * intros [? [=]].
      * intros [[? [=]] | [_ Hnone]]. specialize (Hnone r).
        rewrite fetchMe_resolved in Hnone. discriminate Hnone.
    + rewrite login_fetch_rejected. split; [|by eauto].
      intros _. right. split; [by eauto|]. intros r0. by rewrite fetchMe_rejected.
    + rewrite login_post_rejected. split; eauto.
    + rewrite login_post_rejected. split; eauto.
  - intros err ->. rewrite login_post_rejected.
    cbn [fst snd state settled user loading error].
    destruct (error_text_prefers_detail err "Login failed") as (Hd & Hm & _).
    repeat apply conj; try done. apply error_text_is_Some.
  - intros tok -> [err ->]%fetchMe_yields_none_iff.
    rewrite login_fetch_rejected. done.
  - intros msg ->. rewrite login_post_rejected. split; [by eauto|]. done.
Qed.

Lemma login_rejects_iff_witness :
  let res := login "alice" "wrong" (Rejected bad_credentials) (Rejected unauthorized)
               initialRun in
  (∃ err, fst res = Thrown err) ∧
  error (state (snd res)) = Some "bad credentials" ∧
  user (state (snd res)) = None.
Proof.
  exact (proj2 (proj2 (proj2
    (login_rejects_iff "alice" "wrong" (Rejected bad_credentials)
       (Rejected unauthorized) initialRun)))
    "Request failed with status code 401" eq_refl).
Defined.

(** ** Session store: logout *)

(** C5, as stated, fails: after a successful login as [alice], a logout whose
    request gets no answer ends the sequence with the identity still present
    and the theme still ["theme-dark"]; only the message is recorded. *)
Lemma failed_logout_keeps_identity :
  ¬ (let s' := state (after_all
                 [CallLogin "alice" "pw" (Resolved token) (Resolved alice);
                  CallLogout (Rejected network_error)] initialRun) in
     user s' = None ∧ theme s' = defaultTheme ∧ loading s' = false).
Proof.
  unfold after_all, foldl. rewrite !after_state. simpl.
  intros (Huser & _). discriminate Huser.
Qed.

(** C5, amended: every sequence of store operations that ends in a [logout]
    ends with [loading = false]; when the logout request succeeds the
    identity is absent and the theme is the default; when it fails the same
    failure is re-raised, an error message is recorded, and identity and
    theme are as they were before the call. *)
Theorem logout_ends_session acts post :
  let before := after_all acts initialRun in
  let s' := state (after_all (acts ++ [CallLogout post]) initialRun) in
  loading s' = false ∧
  (∀ ack, post = Resolved ack →
     fst (logout post before) = Normal () ∧
     user s' = None ∧ theme s' = defaultTheme ∧ error s' = None) ∧
  (∀ err, post = Rejected err →
     fst (logout post before) = Thrown err ∧
     is_Some (error s') ∧ error s' = error_text err "Logout failed" ∧
     user s' = user (state before) ∧ theme s' = theme (state before)).
Proof.
  intros before s'. subst s'. rewrite after_all_snoc, after_state. fold before.
  repeat apply conj.
  - by destruct post.
  - intros ack ->. by rewrite logout_resolved.
  - intros err ->. rewrite logout_rejected. repeat apply conj; try done.
    apply error_text_is_Some.
Qed.

Lemma logout_ends_session_witness :
  let s' := state (after_all
              [CallLogin "alice" "pw" (Resolved token) (Resolved alice);
               CallLogout (Resolved ())] initialRun) in
  user s' = None ∧ theme s' = defaultTheme ∧ loading s' = false.
Proof.
  destruct (logout_ends_session
              [CallLogin "alice" "pw" (Resolved token) (Resolved alice)]
              (Resolved ())) as (Hl & Hok & _).
  destruct (Hok () eq_refl) as (_ & Hu & Ht & _).
  exact (conj Hu (conj Ht Hl)).
Defined.

(** ** Session store: the error belongs to the last operation *)

(** C10: each of [fetchMe], [login] and [logout] clears the error before its
    first request goes out, so every request of the operation is pending
    with [loading = true] and [error] absent; and the error left when the
    operation has settled does not depend on the state before it, hence not
    on any earlier operation. *)
Theorem error_describes_last_operation a r :
  (∃ f fs, inflight (after a r) = inflight r ++ f :: fs ∧
           Forall (λ f, error (during f) = None ∧ loading (during f) = true) (f :: fs)) ∧
  (∀ r', error (state (after a r)) = error (state (after a r'))).
Proof.
  split.
  - destruct a as [[data|err]|u p [tok|err] [data|err']|[ack|err]]; unfold after;
      rewrite ?fetchMe_resolved, ?fetchMe_rejected, ?login_resolved,
        ?login_fetch_rejected, ?login_post_rejected, ?logout_resolved,
        ?logout_rejected; cbn [snd inflight]; rewrite <- ?app_assoc;
      eexists _, _; (split; [reflexivity|]); repeat constructor.
  - intros r'. rewrite !after_state.
    by destruct a as [[data|err]|u p [tok|err] [data|err']|[ack|err]].
Qed.

(** ** Route guard *)

Lemma startsWith_spec s p :
  Js.startsWith s p = true ↔ ∃ rest, s = p +:+ rest.
Proof.
  unfold Js.startsWith. revert s.
  induction p as [|c p IH]; intros s.
  - split; [intros _; by exists s | by destruct s].
  - destruct s as [|c' s]; simpl.
    + split; [discriminate | by intros [? ?]].
    + destruct (Ascii.ascii_dec c c') as [->|Hne].
      * rewrite IH. split; intros [rest Hrest]; exists rest.
        -- rewrite Hrest. reflexivity.
        -- by injection Hrest.
      * split; [discriminate | intros [rest Hrest]; by injection Hrest].
Qed.

Lemma append_assoc (a b c : string) : (a +:+ b) +:+ c = a +:+ (b +:+ c).
Proof.
  induction a as [|x a IH]; [done|].
  change (String x ((a +:+ b) +:+ c) = String x (a +:+ (b +:+ c))).
  by rewrite IH.
Qed.

Lemma isPublic_spec pathname :
  isPublic pathname = true ↔
  ∃ route, route ∈ publicRoutes ∧
    (pathname = route ∨ ∃ rest, pathname = route +:+ "/" +:+ rest).
Proof.
  unfold isPublic. rewrite existsb_exists. split.
  - intros (route & Hin%list_elem_of_In & Hmatch). exists route. split; [done|].
    apply orb_true_iff in Hmatch as [Heq%String.eqb_eq | Hpre%startsWith_spec].
    + by left.
    + right. destruct Hpre as [rest ->]. exists rest.
      by rewrite append_assoc.
  - intros (route & Hin%list_elem_of_In & Hmatch). exists route. split; [done|].
    apply orb_true_iff. destruct Hmatch as [-> | [rest ->]].
    + left. apply String.eqb_refl.
    + right. apply startsWith_spec. exists rest.
      by rewrite append_assoc.
Qed.

(** C7: a path is public exactly when it equals a configured public route or
    starts with one followed by "/"; once loading is over, the authenticated
    shell is rendered exactly when an identity is present and the path is
    not public, and the content is passed through unguarded otherwise. *)
Theorem route_guard_public_or_shell pathname ctx :
  (isPublic pathname = true ↔
     ∃ route, route ∈ publicRoutes ∧
       (pathname = route ∨ ∃ rest, pathname = route +:+ "/" +:+ rest)) ∧
  (loading ctx = false →
     ((∃ u, user ctx = Some u ∧ ClientShell pathname ctx = AuthenticatedShell u) ↔
        (is_Some (user ctx) ∧ isPublic pathname = false)) ∧
     ((∃ u, ClientShell pathname ctx = AuthenticatedShell u) →
        is_Some (user ctx) ∧ isPublic pathname = false) ∧
     (¬ (is_Some (user ctx) ∧ isPublic pathname = false) →
        ClientShell pathname ctx = Passthrough)).
Proof.
  split; [apply isPublic_spec|].
  intros Hload. unfold ClientShell. rewrite Hload.
  destruct (user ctx) as [u|]; [destruct (isPublic pathname)|].
  - (* identity present, public route *)
    split; [split|split].
    + intros (u0 & _ & H). discriminate H.
    + intros [_ [=]].
    + intros [u0 H]. discriminate H.
    + reflexivity.
  - (* identity present, guarded route *)
    split; [split|split].
    + intros _. split; [by eexists | reflexivity].
    + intros _. by exists u.
    + intros _. split; [by eexists | reflexivity].
    + intros Hn. destruct Hn. split; [by eexists | reflexivity].
  - (* no identity *)
    split; [split|split].
    + intros (u0 & [=] & _).
    + intros [[u0 [=]] _].
    + intros [u0 H]. discriminate H.
    + reflexivity.
Qed.

Lemma route_guard_public_or_shell_witness :
  let ctx := settled (Some alice) None "theme-dark" in
  ∃ u, user ctx = Some u ∧ ClientShell "/dashboard" ctx = AuthenticatedShell u.
Proof.
  apply (proj1 (proj2 (route_guard_public_or_shell "/dashboard"
                         (settled (Some alice) None "theme-dark")) eq_refl)).
  split; [by eexists | reflexivity].
Defined.

(** C8: while [loading] is true the route guard renders the loading
    placeholder, whatever the route and whether or not an identity is
    present. *)
Theorem loading_renders_placeholder pathname ctx :
  loading ctx = true → ClientShell pathname ctx = LoadingPlaceholder.
Proof. intros Hload. unfold ClientShell. by rewrite Hload. Qed.

Lemma loading_renders_placeholder_witness :
  ClientShell "/dashboard" (pending (settled (Some alice) None "theme-dark"))
    = LoadingPlaceholder.
Proof. apply loading_renders_placeholder. reflexivity. Defined.

(** C9: in the authenticated shell the sidebar region ([aside], holding the
    [Sidebar] component) is rendered exactly when [ui_sidebar] is not
    [false], the navbar region ([header], holding [Navbar]) exactly when
    [ui_navbar] is not [false], and the page content is rendered inside
    [main] in every case. *)
Theorem shell_regions pathname ctx u :
  loading ctx = false → user ctx = Some u → isPublic pathname = false →
  let e := ClientShell pathname ctx in
  (has_tag "aside" e = true ↔ ui_sidebar u ≠ false) ∧
  (has_component "Sidebar" e = true ↔ ui_sidebar u ≠ false) ∧
  (has_tag "header" e = true ↔ ui_navbar u ≠ false) ∧
  (has_component "Navbar" e = true ↔ ui_navbar u ≠ false) ∧
  children_in_tag "main" e = true.
Proof.
  intros Hload Huser Hpublic. unfold ClientShell.
  rewrite Hload, Huser, Hpublic. unfold AuthenticatedShell.
  destruct (ui_sidebar u), (ui_navbar u); vm_compute; intuition congruence.
Qed.

Lemma shell_regions_witness :
  let e := ClientShell "/dashboard" (settled (Some alice) None "theme-dark") in
  has_tag "aside" e = true ∧ has_tag "header" e = true ∧
  children_in_tag "main" e = true.
Proof.
  destruct (shell_regions "/dashboard" (settled (Some alice) None "theme-dark") alice
              eq_refl eq_refl eq_refl) as (Hs & _ & Hn & _ & Hmain).
  exact (conj (proj2 Hs ltac:(discriminate))
           (conj (proj2 Hn ltac:(discriminate)) Hmain)).
Defined.

(** ** Sidebar *)

Lemma links_href_inj l l' :
  l ∈ links → l' ∈ links → href l = href l' → l = l'.
Proof.
  unfold links. rewrite !elem_of_cons, !elem_of_nil.
  intros [->|[->|[->|[->|[]]]]] [->|[->|[->|[->|[]]]]]; simpl; congruence.
Qed.

Lemma sidebar_entry_None u l :
  sidebar_entry (Some u) l = None ↔
  ui_simple_mode u = true ∧ ui_features u !! key l ≠ Some true.
Proof.
  unfold sidebar_entry, simple_mode, feature_enabled.
  destruct (ui_simple_mode u), (ui_features u !! key l) as [[]|]; simpl;
    split; try discriminate; try done; intros [? ?]; congruence.
Qed.

Lemma suppressed_iff_no_entry ctx l :
  l ∈ links → suppressed ctx l ↔ sidebar_entry (user ctx) l = None.
Proof.
  intros Hl. unfold suppressed, skip_null.
  rewrite list_elem_of_omap. split.
  - intros Hno. destruct (sidebar_entry (user ctx) l) as [e|] eqn:He; [|done].
    destruct Hno. exists (sidebar_entry (user ctx) l). split.
    + apply list_elem_of_fmap. by exists l.
    + rewrite He. unfold sidebar_entry in He.
      destruct (_ && _); [discriminate | by injection He as <-].
  - intros Hnone (k & (l' & -> & Hl')%list_elem_of_fmap & Hk).
    unfold sidebar_entry in Hk. destruct (_ && _) eqn:Hc; [discriminate|].
    injection Hk as Hhref _. 
    assert (l' = l) as -> by (by apply links_href_inj).
    unfold sidebar_entry in Hnone. rewrite Hc in Hnone. discriminate.
Qed.

(** C6: for an identity [u], an entry of the sidebar's list is suppressed if
    and only if [ui_simple_mode] is true and the feature-flag mapping has no
    true value for the entry's key; when [ui_simple_mode] is false every
    entry is rendered, whatever the feature flags. *)
Theorem sidebar_entry_suppressed_iff ctx u l :
  user ctx = Some u → l ∈ links →
  (suppressed ctx l ↔
     ui_simple_mode u = true ∧ ui_features u !! key l ≠ Some true) ∧
  (ui_simple_mode u = false →
     Link (href l) (href l) (label l)
       ∈ skip_null (map (sidebar_entry (user ctx)) links)).
Proof.
  intros Hu Hl. split.
  - rewrite suppressed_iff_no_entry by done. rewrite Hu. apply sidebar_entry_None.
  - intros Hmode. unfold skip_null. apply list_elem_of_omap.
    exists (sidebar_entry (user ctx) l). split.
    + apply list_elem_of_fmap. by exists l.
    + rewrite Hu. unfold sidebar_entry, simple_mode. by rewrite Hmode.
Qed.

Lemma sidebar_entry_suppressed_iff_witness :
  suppressed (settled (Some carol) None "theme-light") blocks.
Proof.
  apply (proj1 (sidebar_entry_suppressed_iff
                  (settled (Some carol) None "theme-light") carol blocks
                  eq_refl ltac:(repeat constructor))).
  split; [reflexivity | vm_compute; discriminate].
Defined.

Example sidebar_of_carol :
  Sidebar (settled (Some carol) None "theme-light") =
    Tag "div" "p-4 h-full bg-[var(--bg)] text-[var(--fg)]"
      [Tag "nav" "flex flex-col gap-3" [Link "/dashboard" "/dashboard" "Dashboard"]].
Proof. vm_compute. reflexivity. Qed.

Example sidebar_of_alice :
  Sidebar (settled (Some alice) None "theme-dark") =
    Tag "div" "p-4 h-full bg-[var(--bg)] text-[var(--fg)]"
      [Tag "nav" "flex flex-col gap-3"
         [Link "/dashboard" "/dashboard" "Dashboard";
          Link "/intake" "/intake" "Intake";
          Link "/blocks" "/blocks" "Blocks";
          Link "/reports" "/reports" "Reports"]].
Proof. vm_compute. reflexivity. Qed.

Example public_paths :
  isPublic "/login" = true ∧ isPublic "/public/help" = true ∧
  isPublic "/" = true ∧ isPublic "/dashboard" = false ∧
  isPublic "/loginx" = false.
Proof. vm_compute. done. Qed.

(** * Further properties of the code *)

(** ** Session store *)

Lemma truthy_or_fallback a (s fallback : string) :
  fallback ≠ "" → Js.truthy (a ||| Some s ||| Some fallback) = true.
Proof.
  intros Hfb%truthy_string_spec. unfold Js.or.
  destruct (Js.truthy a) eqn:Ha; [by rewrite Ha|].
  simpl. destruct (Js.truthy_string s) eqn:Hs; simpl; by rewrite ?Hs.
Qed.

Lemma truthy_not_empty (e : option string) : Js.truthy e = true → e ≠ Some "".
Proof. intros He ->. discriminate He. Qed.

Lemma fetch_error_truthy err :
  fetch_error err = None ∨ Js.truthy (fetch_error err) = true.
Proof.
  unfold fetch_error. destruct (response err) as [resp|]; [|by left].
  destruct (_ && _); [right|by left]. by apply truthy_or_fallback.
Qed.

Lemma error_text_truthy err fallback :
  fallback ≠ "" → Js.truthy (error_text err fallback) = true.
Proof. apply truthy_or_fallback. Qed.

(** X1: every store operation, whether it resolves or rejects and whatever
    the state before it, ends with [loading = false]; so does every
    non-empty sequence of operations. *)
Theorem operation_ends_loading acts a r :
  loading (state (after a r)) = false ∧
  loading (state (after_all (acts ++ [a]) r)) = false.
Proof.
  assert (∀ r0, loading (state (after a r0)) = false) as Hone.
  { intros r0. rewrite after_state.
    by destruct a as [[?|?]|? ? [?|?] [?|?]|[?|?]]. }
  split; [apply Hone|]. rewrite after_all_snoc. apply Hone.
Qed.

Lemma reachable_error_not_empty s : Reachable s → error s ≠ Some "".
Proof.
  revert s. apply (invariant_reachable (λ s, error s ≠ Some "")); [done|].
  intros a r _. rewrite after_state.
  destruct a as [[?|err]|? ? [?|err] [?|?]|[?|err]]; simpl; try done.
  - destruct (fetch_error_truthy err) as [->|H]; [done|by apply truthy_not_empty].
  - by apply truthy_not_empty, error_text_truthy.
  - by apply truthy_not_empty, error_text_truthy.
  - by apply truthy_not_empty, error_text_truthy.
Qed.

(** X2: the error message of a reachable state is never the empty string:
    each [catch] block ends its [||] chain with a fixed non-empty text. *)
Theorem recorded_error_never_empty s :
  Reachable s → error s ≠ Some "".
Proof. apply reachable_error_not_empty. Qed.

Lemma recorded_error_never_empty_witness :
  error (state (after_all
           [CallLogin "alice" "wrong" (Rejected bad_credentials) (Rejected unauthorized)]
           initialRun)) ≠ Some "".
Proof. apply recorded_error_never_empty, reachable_after_all. Defined.

Lemma applied_theme_idem data t :
  applied_theme data (applied_theme data t) = applied_theme data t.
Proof. unfold applied_theme. by destruct (Js.truthy_string _). Qed.

(** X3: repeating an operation against the same answers of the back end
    changes nothing: the state after the second run is the state after the
    first. *)
Theorem operation_idempotent a r :
  state (after a (after a r)) = state (after a r).
Proof.
  rewrite (after_state a (after a r)), (after_state a r).
  destruct a as [[?|?]|? ? [?|?] [?|?]|[?|?]]; simpl; by rewrite ?applied_theme_idem.
Qed.

(** X4: [fetchMe] never rejects, and what it returns is exactly the
    identity it has stored; [login] resolves only with the identity it has
    stored, and leaves no identity when it rejects. *)
Theorem returned_identity_is_stored me r :
  fst (fetchMe me r) = Normal (user (state (snd (fetchMe me r)))) ∧
  ∀ username password post,
    match fst (login username password post me r) with
    | Normal u => user (state (snd (login username password post me r))) = Some u
    | Thrown _ => user (state (snd (login username password post me r))) = None
    end.
Proof.
  split.
  - destruct me; by rewrite ?fetchMe_resolved, ?fetchMe_rejected.
  - intros username password [tok|err]; destruct me;
      by rewrite ?login_resolved, ?login_fetch_rejected, ?login_post_rejected.
Qed.

(** X5: what goes on the wire.  [fetchMe] sends one [GET /auth/me] and
    [logout] one [POST /auth/logout], both without a body; [login] sends the
    credentials in a [POST /auth/login] and asks [/auth/me] afterwards
    exactly when that POST succeeded. *)
Theorem wire_protocol a r :
  ∃ sent, inflight (after a r) = inflight r ++ sent ∧
    map on_wire sent =
      match a with
      | CallFetchMe _ => [("GET", "/auth/me", None)]
      | CallLogin username password post _ =>
          ("POST", "/auth/login", Some (username, password)) ::
          match post with
          | Resolved _ => [("GET", "/auth/me", None)]
          | Rejected _ => []
          end
      | CallLogout _ => [("POST", "/auth/logout", None)]
      end.
Proof.
  destruct a as [[?|?]|? ? [?|?] [?|?]|[?|?]]; unfold after;
    rewrite ?fetchMe_resolved, ?fetchMe_rejected, ?login_resolved,
      ?login_fetch_rejected, ?login_post_rejected, ?logout_resolved,
      ?logout_rejected; cbn [snd inflight]; rewrite <- ?app_assoc;
    eexists; (split; [reflexivity|reflexivity]).
Qed.

(** X6: the first render shows the loading placeholder on every path; once
    the mount fetch has settled the placeholder is gone: a fetched identity
    gets the shell on a path that is not public, and everything else is
    passed through. *)
Theorem mount_then_guard pathname me :
  ClientShell pathname initialState = LoadingPlaceholder ∧
  ClientShell pathname (state (mount me)) =
    match me with
    | Resolved u => if isPublic pathname then Passthrough else AuthenticatedShell u
    | Rejected _ => Passthrough
    end.
Proof.
  split; [reflexivity|]. unfold mount.
  destruct me; by rewrite ?fetchMe_resolved, ?fetchMe_rejected.
Qed.

(** ** Pages and navigation *)

Lemma cons_neq_self {A} (x : A) (l : list A) : l ≠ x :: l.
Proof. intros H. apply (f_equal length) in H. simpl in H. lia. Qed.

(** X7: the logout button of the navbar goes to ["/login"] exactly when the
    logout request succeeded, and then the identity is gone and the theme is
    the default again; when the request failed the user stays where they
    are, still logged in, the failure is logged to the console and a
    non-empty message is in the store. *)
Theorem navbar_logout_navigates post b :
  let b' := handleLogout post b in
  (history b' = "/login" :: history b ↔ ∃ ack, post = Resolved ack) ∧
  (∀ ack, post = Resolved ack →
     user (state (store b')) = None ∧ theme (state (store b')) = defaultTheme ∧
     console b' = console b) ∧
  (∀ err, post = Rejected err →
     history b' = history b ∧ console b' = console b ++ [err] ∧
     user (state (store b')) = user (state (store b)) ∧
     Js.truthy (error (state (store b'))) = true).
Proof.
  unfold handleLogout. destruct post as [ack|err].
  - rewrite logout_resolved. cbn. split; [split|split].
    + intros _. by exists ack.
    + reflexivity.
    + intros _ _. repeat split.
    + intros ? [=].
  - rewrite logout_rejected. cbn. split; [split|split].
    + intros H. by destruct (cons_neq_self _ _ H).
    + intros [? [=]].
    + intros ? [=].
    + intros ? [= <-]. repeat split. by apply error_text_truthy.
Qed.

Lemma navbar_logout_navigates_witness :
  let b := {| store := mount (Resolved alice); history := ["/dashboard"]; console := [] |} in
  history (handleLogout (Resolved ()) b) = ["/login"; "/dashboard"].
Proof.
  intros b.
  exact (proj2 (proj1 (navbar_logout_navigates (Resolved ()) b))
           (ex_intro _ () eq_refl)).
Defined.

(** X8: the navbar always offers Logout, and offers Settings exactly when
    there is no identity or the identity is not in simple mode. *)
Theorem navbar_buttons ctx :
  has_button "Logout" (Navbar ctx) = true ∧
  (has_button "Settings" (Navbar ctx) = true ↔
     user ctx = None ∨ ∃ u, user ctx = Some u ∧ ui_simple_mode u = false).
Proof.
  unfold Navbar. destruct (user ctx) as [u|]; simpl.
  - destruct (ui_simple_mode u) eqn:Hmode; split; try reflexivity.
    + split; [discriminate|]. intros [[=]|(u' & [= <-] & Hu')]. congruence.
    + split; [|reflexivity]. intros _. right. by exists u.
  - split; [reflexivity|]. split; [by left|reflexivity].
Qed.




(** X11: the dashboard page redirects exactly when it shows "Redirecting":
    loading is over and there is no identity.  The redirect overwrites the
    current history entry, so the history does not grow; while loading, and
    with an identity, the history is left alone. *)
Theorem dashboard_redirect ctx entries :
  (DashboardPage ctx = DashRedirecting ↔ loading ctx = false ∧ user ctx = None) ∧
  (DashboardPage ctx = DashRedirecting →
     dashboard_effect ctx entries = "/(auth)/login" :: tail entries) ∧
  (DashboardPage ctx ≠ DashRedirecting → dashboard_effect ctx entries = entries) ∧
  (entries ≠ [] → length (dashboard_effect ctx entries) = length entries).
Proof.
  unfold DashboardPage, dashboard_effect, router_replace.
  destruct (loading ctx), (user ctx) as [u|]; cbn; repeat split;
    try done; try (by intros [? ?]); try (by intros []).
  by destruct entries.
Qed.

Lemma dashboard_redirect_witness :
  dashboard_effect (state (mount (Rejected unauthorized))) ["/dashboard"; "/"]
    = ["/(auth)/login"; "/"].
Proof.
  apply (proj1 (proj2 (dashboard_redirect (state (mount (Rejected unauthorized)))
                         ["/dashboard"; "/"]))).
  reflexivity.
Defined.

(** X12: a visitor without a session who opens the dashboard.  While the
    mount fetch is pending the guard shows the placeholder and nothing
    redirects; once the fetch has failed, whatever the failure, the guard
    passes the page through without the shell and the page redirects to the
    login route. *)
Theorem dashboard_without_session err s entries :
  (ClientShell "/dashboard" (pending s) = LoadingPlaceholder ∧
   dashboard_effect (pending s) entries = entries) ∧
  (ClientShell "/dashboard" (state (mount (Rejected err))) = Passthrough ∧
   DashboardPage (state (mount (Rejected err))) = DashRedirecting ∧
   dashboard_effect (state (mount (Rejected err))) entries
     = "/(auth)/login" :: tail entries).
Proof. unfold mount. rewrite fetchMe_rejected. done. Qed.

(** X13: a successful submit of the login form lands on ["/dashboard"],
    where the guard renders the authenticated shell of the fetched identity
    and the page welcomes that identity without redirecting. *)
Theorem login_lands_on_dashboard username password tok u b :
  let b' := handleSubmit username password (Resolved tok) (Resolved u) b in
  let s := state (store b') in
  head (history b') = Some "/dashboard" ∧
  ClientShell "/dashboard" s = AuthenticatedShell u ∧
  DashboardPage s = DashWelcome u ∧
  dashboard_effect s (history b') = history b'.
Proof. unfold handleSubmit. rewrite login_resolved. done. Qed.

(** X14: after a logout that succeeded the user is on ["/login"]; on every
    path the guard now passes the content through without navigation
    chrome, and the dashboard page would redirect. *)
Theorem logout_leaves_shell ack b pathname :
  let b' := handleLogout (Resolved ack) b in
  let s := state (store b') in
  head (history b') = Some "/login" ∧
  ClientShell pathname s = Passthrough ∧
  has_component "Navbar" (ClientShell pathname s) = false ∧
  has_component "Sidebar" (ClientShell pathname s) = false ∧
  DashboardPage s = DashRedirecting.
Proof. unfold handleLogout. rewrite logout_resolved. done. Qed.

(** ** Route guard *)

(** X15: public paths are absolute, and everything below a public path is
    public. *)
Theorem isPublic_subpath pathname rest :
  isPublic pathname = true →
  (∃ tail, pathname = "/" +:+ tail) ∧
  isPublic (pathname +:+ "/" +:+ rest) = true.
Proof.
  intros (route & Hroute & Hmatch)%isPublic_spec. split.
  - unfold publicRoutes in Hroute. rewrite !elem_of_cons, elem_of_nil in Hroute.
    destruct Hmatch as [->|[rest0 ->]];
      destruct Hroute as [->|[->|[->|[->|[]]]]]; by eexists.
  - apply isPublic_spec. exists route. split; [done|]. right.
    destruct Hmatch as [->|[rest0 ->]]; [by exists rest|].
    exists (rest0 +:+ "/" +:+ rest).
    change (route +:+ "/" +:+ rest0) with (route +:+ ("/" +:+ rest0)).
    by rewrite !append_assoc.
Qed.

Lemma isPublic_subpath_witness : isPublic ("/public/docs" +:+ "/" +:+ "intro") = true.
Proof. apply (isPublic_subpath "/public/docs" "intro"). reflexivity. Defined.

(** X16: the guard renders the page content exactly when loading is over,
    and it renders the [Navbar] or [Sidebar] component only for a present
    identity on a path that is not public. *)
Theorem guard_content_and_chrome pathname ctx :
  has_children (ClientShell pathname ctx) = negb (loading ctx) ∧
  (has_component "Navbar" (ClientShell pathname ctx) = true ∨
   has_component "Sidebar" (ClientShell pathname ctx) = true →
   loading ctx = false ∧ is_Some (user ctx) ∧ isPublic pathname = false).
Proof.
  unfold ClientShell.
  destruct (loading ctx), (user ctx) as [u|], (isPublic pathname); cbn;
    try (split; [reflexivity | by intros [?|?]]).
  all: split; [|by eauto].
  all: unfold AuthenticatedShell; by destruct (ui_sidebar u), (ui_navbar u).
Qed.

Lemma guard_content_and_chrome_witness :
  loading (settled (Some alice) None "theme-dark") = false ∧
  is_Some (user (settled (Some alice) None "theme-dark")) ∧
  isPublic "/dashboard" = false.
Proof.
  apply (proj2 (guard_content_and_chrome "/dashboard"
                  (settled (Some alice) None "theme-dark"))).
  left. reflexivity.
Defined.

(** ** Sidebar *)

Lemma sidebar_entry_cases u l :
  sidebar_entry u l = None ∨ sidebar_entry u l = Some (link_of l).
Proof. unfold sidebar_entry, link_of. destruct (_ && _); eauto. Qed.

Lemma skip_null_sublist u (ls : list NavLink) :
  skip_null (map (sidebar_entry u) ls) `sublist_of` map link_of ls.
Proof.
  unfold skip_null. induction ls as [|l ls IH]; [done|]. cbn.
  destruct (sidebar_entry_cases u l) as [->| ->]; cbn.
  - by apply sublist_cons.
  - by apply sublist_skip.
Qed.

(** X17: the sidebar never reorders or invents entries: what it renders is
    a sub-list of the four links in their fixed order.  Without simple mode
    (or without an identity) it is the whole list; in simple mode with an
    empty feature mapping it is empty. *)
Theorem sidebar_renders_sublist ctx :
  nav_children ctx `sublist_of` map link_of links ∧
  (simple_mode (user ctx) = false → nav_children ctx = map link_of links) ∧
  (∀ u, user ctx = Some u → ui_simple_mode u = true → ui_features u = ∅ →
     nav_children ctx = []).
Proof.
  split; [apply skip_null_sublist|]. unfold nav_children, sidebar_entry. split.
  - intros ->. reflexivity.
  - intros u -> Hmode Hempty. cbn. rewrite Hmode, Hempty. reflexivity.
Qed.

Lemma sidebar_renders_sublist_witness :
  nav_children (settled (Some alice) None "theme-dark") = map link_of links.
Proof.
  apply (proj1 (proj2 (sidebar_renders_sublist (settled (Some alice) None "theme-dark")))).
  reflexivity.
Defined.

(** X18: setting the feature flag of one key decides the entry with that
    key (in simple mode it is shown exactly when the flag is true) and
    leaves every other entry as it was. *)
Theorem feature_flag_controls_own_entry u k b l :
  (key l = k →
     sidebar_entry (Some (set_feature k b u)) l =
       if ui_simple_mode u && negb b then None else Some (link_of l)) ∧
  (key l ≠ k →
     sidebar_entry (Some (set_feature k b u)) l = sidebar_entry (Some u) l).
Proof.
  unfold sidebar_entry, simple_mode, feature_enabled, set_feature. cbn. split.
  - intros ->. by rewrite lookup_insert_eq.
  - intros Hne. by rewrite lookup_insert_ne.
Qed.

Lemma feature_flag_controls_own_entry_witness :
  sidebar_entry (Some (set_feature "blocks" true carol)) blocks = Some (link_of blocks).
Proof.
  exact (proj1 (feature_flag_controls_own_entry carol "blocks" true blocks) eq_refl).
Defined.

(** ** The keys of config/.env *)

Lemma append_cons c (s x : string) : String c s +:+ x = String c (s +:+ x).
Proof. reflexivity. Qed.




Section DotenvProperties.

Variable same_char : Ascii.ascii → Ascii.ascii → bool.
Hypothesis same_char_refl : ∀ c, same_char c c = true.
Variable platform : Platform.


Lemma matches_at_app pat s x :
  matches_at same_char pat s = true → matches_at same_char pat (s +:+ x) = true.
Proof.
  revert s. induction pat as [|p pat IH]; intros s; [done|].
  destruct s as [|c s]; [discriminate|].
  rewrite append_cons. cbn. intros [-> Hrest]%andb_true_iff. by apply IH.
Qed.

Lemma matches_line_start_unfold pat b s :
  matches_line_start same_char pat b s =
    (b && matches_at same_char pat s) ||
    match s with
    | "" => false
    | String c s' => matches_line_start same_char pat (Ascii.eqb c LF) s'
    end.
Proof. by destruct s. Qed.

Lemma matches_line_start_app pat b s x :
  matches_line_start same_char pat b s = true →
  matches_line_start same_char pat b (s +:+ x) = true.
Proof.
  revert b. induction s as [|c s IH]; intros b.
  - cbn. rewrite orb_false_r. intros [-> Hm]%andb_true_iff.
    rewrite matches_line_start_unfold.
    apply (matches_at_app _ _ x) in Hm. cbn in Hm. by rewrite Hm.
  - rewrite append_cons, (matches_line_start_unfold _ _ (String c s)),
      (matches_line_start_unfold _ _ (String c (s +:+ x))).
    intros [[-> Hm]%andb_true_iff | Hlater]%orb_true_iff.
    + apply (matches_at_app _ _ x) in Hm. rewrite append_cons in Hm. by rewrite Hm.
    + rewrite (IH _ Hlater). apply orb_true_r.
Qed.



Lemma has_key_app Key content x :
  has_key same_char Key content = true → has_key same_char Key (content +:+ x) = true.
Proof. apply matches_line_start_app. Qed.

Lemma EnsureKey_extends content Key value :
  ∃ added, (EnsureKey same_char platform content Key value).1 = content +:+ added ∧
           (added = "" ∨ ∃ line, added = line +:+ newline platform).
Proof.
  unfold EnsureKey. destruct (has_key _ _ _); cbn.
  - exists "". split; [|by left]. induction content as [|c s IH]; [done|].
    by rewrite append_cons, <- IH.
  - eexists. split; [reflexivity|]. right. exists (Key +:+ "=" +:+ value).
    by rewrite !append_assoc.
Qed.


Lemma EnsureKey_keeps content Key value other :
  has_key same_char other content = true →
  has_key same_char other (EnsureKey same_char platform content Key value).1 = true.
Proof.
  intros Hother. destruct (EnsureKey_extends content Key value) as (added & -> & _).
  by apply has_key_app.
Qed.


Lemma EnsureKey_noop content Key value :
  has_key same_char Key content = true →
  EnsureKey same_char platform content Key value = (content, Key +:+ " already exists").
Proof. intros Hkey. unfold EnsureKey. by rewrite Hkey. Qed.


(** X20: [EnsureKey] never rewrites the file: the old text is kept as the
    beginning of the new one, a key that was found before is still found,
    and when the key itself was found the text is unchanged. *)
Theorem EnsureKey_keeps_existing content Key value :
  let content' := (EnsureKey same_char platform content Key value).1 in
  (∃ added, content' = content +:+ added) ∧
  (∀ other, has_key same_char other content = true →
     has_key same_char other content' = true) ∧
  (has_key same_char Key content = true → content' = content).
Proof.
  intros content'. split; [|split].
  - destruct (EnsureKey_extends content Key value) as (added & H & _). by exists added.
  - intros other. apply EnsureKey_keeps.
  - intros Hkey. subst content'. by rewrite EnsureKey_noop.
Qed.


End DotenvProperties.


Lemma EnsureKey_keeps_existing_witness :
  has_key same_letter "secret_key"
    (EnsureKey same_letter Unix ("SECRET_KEY=s" +:+ newline Unix) "OTHER" "1").1 = true.
Proof.
  apply (proj1 (proj2 (EnsureKey_keeps_existing same_letter Unix
                         ("SECRET_KEY=s" +:+ newline Unix) "OTHER" "1"))).
  reflexivity.
Defined.


(** A fresh checkout: the three entries, one per line. *)
Example ensure_env_fresh :
  ensure_env same_letter Unix "guid-1" None =
    "SECRET_KEY=guid-1" +:+ newline Unix +:+
    "BOOTSTRAP_ADMIN_PASSWORD=IfAtFirst123!" +:+ newline Unix +:+
    "BOOTSTRAP_ADMIN_DISPLAY_NAME=Administrator" +:+ newline Unix.
Proof. vm_compute. reflexivity. Qed.

(** Without a line feed at the end of the file the entry is glued to the
    last line, where it is not found again: a second call appends once
    more. *)
Example EnsureKey_unterminated_last_line :
  let once := (EnsureKey same_letter Unix "A=1" "B" "2").1 in
  once = "A=1B=2" +:+ newline Unix ∧
  has_key same_letter "B" once = false ∧
  (EnsureKey same_letter Unix once "B" "2").1 =
    "A=1B=2" +:+ newline Unix +:+ "B=2" +:+ newline Unix.
Proof. vm_compute. done. Qed.

(** ** Theme and pending requests *)

Lemma applied_theme_not_empty data t : t ≠ "" → applied_theme data t ≠ "".
Proof.
  intros Ht. unfold applied_theme.
  destruct (Js.truthy_string (ui_theme data)) eqn:Hd; [|done].
  by apply truthy_string_spec.
Qed.

(** X22: the class the guard puts on the document root is never empty: the
    theme starts as ["theme-light"], [fetchMe] replaces it only by a
    non-empty [ui_theme], and [logout] resets it. *)
Theorem document_class_never_empty s :
  Reachable s → documentClassName s ≠ "".
Proof.
  revert s. apply (invariant_reachable (λ s, theme s ≠ "")); [done|].
  intros a r Hr. rewrite after_state.
  destruct a as [[?|?]|? ? [?|?] [?|?]|[?|?]]; simpl;
    try done; by apply applied_theme_not_empty.
Qed.

Lemma document_class_never_empty_witness :
  documentClassName (state (after_all [CallFetchMe (Resolved unthemed)] initialRun)) ≠ "".
Proof. apply document_class_never_empty, reachable_after_all. Defined.

Lemma after_inflight a r :
  ∃ sent, inflight (after a r) = inflight r ++ sent ∧
          Forall (λ f, during f = pending (state r)) sent.
Proof.
  destruct a as [[?|?]|? ? [?|?] [?|?]|[?|?]]; unfold after;
    rewrite ?fetchMe_resolved, ?fetchMe_rejected, ?login_resolved,
      ?login_fetch_rejected, ?login_post_rejected, ?logout_resolved,
      ?logout_rejected; cbn [snd inflight]; rewrite <- ?app_assoc;
    eexists; (split; [reflexivity|]); repeat constructor.
Qed.

Lemma inflight_pending acts f :
  f ∈ inflight (after_all acts initialRun) → ∃ s, during f = pending s.
Proof.
  induction acts as [|a acts IH] using rev_ind; [by intros ?%elem_of_nil|].
  rewrite after_all_snoc.
  destruct (after_inflight a (after_all acts initialRun)) as (sent & -> & Hsent).
  intros [Hold|Hnew]%elem_of_app; [by apply IH|].
  rewrite Forall_forall in Hsent. eexists. by apply Hsent.
Qed.

(** X23: while any request of any operation is pending, the guard shows the
    loading placeholder on every path, the store shows no error, the submit
    button of the login form is disabled, and the dashboard page does not
    redirect. *)
Theorem pending_request_view acts f pathname username password entries :
  f ∈ inflight (after_all acts initialRun) →
  ClientShell pathname (during f) = LoadingPlaceholder ∧
  error (during f) = None ∧
  submit_disabled (LoginPage username password (during f)) = true ∧
  dashboard_effect (during f) entries = entries.
Proof. intros [s ->]%inflight_pending. done. Qed.

Lemma pending_request_view_witness :
  ClientShell "/login" (pending initialState) = LoadingPlaceholder.
Proof.
  apply (pending_request_view
           [CallLogin "alice" "pw" (Rejected network_error) (Rejected network_error)]
           (flight "POST" "/auth/login" (Some ("alice", "pw")) initialState)
           "/login" "alice" "pw" []).
  vm_compute. apply list_elem_of_here.
Defined.


Lemma navbar_buttons_witness :
  has_button "Settings" (Navbar (settled (Some alice) None "theme-dark")) = true.
Proof.
  apply (proj2 (navbar_buttons (settled (Some alice) None "theme-dark"))).
  right. by exists alice.
Defined.
